(** * simple-weather: a shallow embedding of [js/utils.js] and [js/main.js]

    The page resolves a location (URL parameter or geolocation), subscribes
    to a revalidating data source and renders each emission into [#app].

    Conventions of the embedding:
    - JavaScript strings are kept as byte strings (UTF-8).  The only
      separators and needles the code searches for are ASCII (["-"], [" "],
      ["day"], ["&"], ["="]), for which searching bytes and searching
      UTF-16 code units agree.
    - Values that may be [undefined] or [null] are of type [jsval].
    - Code that can throw returns a [completion]; promises are cells that
      are settled at most once.
    - Doubles are not modelled: the measurements of the payload and the
      coordinates live in an abstract type [number] that comes with its
      [ToString]; condition codes are integers. *)

From Stdlib Require Import ZArith Lia Ascii String List.
From stdpp Require Import base option list strings gmap pretty.

Open Scope Z_scope.

(** ** JavaScript values *)

(** The primitive values the two files pass around.  [JNum] carries an
    integer-valued number, which is all the code compares (condition
    codes). *)
Inductive jsval : Type :=
| JUndefined
| JNull
| JBool (b : bool)
| JNum (z : Z)
| JStr (s : string).

(** ToBoolean. *)
Definition truthy (v : jsval) : bool :=
  match v with
  | JUndefined | JNull => false
  | JBool b => b
  | JNum z => negb (z =? 0)
  | JStr s => negb (String.eqb s "")
  end.

(** The result of running code that may throw. *)
Inductive completion (A : Type) : Type :=
| Normal (a : A)
| Throw (e : string).
Arguments Normal {A} a.
Arguments Throw {A} e.

(** A promise: pending until the first call of its [resolve]. *)
Inductive promise (A : Type) : Type :=
| Pending
| Fulfilled (a : A)
| Rejected (e : string).
Arguments Pending {A}.
Arguments Fulfilled {A} a.
Arguments Rejected {A} e.

(** The [resolve] function handed to a promise executor: it settles a
    pending promise and does nothing to a settled one. *)
Definition resolve {A : Type} (v : A) (p : promise A) : promise A :=
  match p with
  | Pending => Fulfilled v
  | _ => p
  end.

(** ** Strings *)

(** [s.includes(needle)]. *)
Fixpoint str_includes (s needle : string) : bool :=
  if String.prefix needle s then true
  else match s with
       | EmptyString => false
       | String _ s' => str_includes s' needle
       end.

(** [s.split(sep)] for a one-character separator: the pieces between the
    separators, in order; never the empty array. *)
Fixpoint str_split (sep : ascii) (s : string) : list string :=
  match s with
  | EmptyString => [EmptyString]
  | String c s' =>
      if Ascii.eqb c sep then EmptyString :: str_split sep s'
      else match str_split sep s' with
           | [] => [String c EmptyString]
           | w :: ws => String c w :: ws
           end
  end.

(** [a[i]] on an array of strings: [undefined] out of range. *)
Definition at_index (a : list string) (i : nat) : jsval :=
  match a !! i with
  | Some s => JStr s
  | None => JUndefined
  end.

(** [a.includes(v)] on an array of integers (SameValueZero): only a number
    can be found. *)
Definition arr_includes (a : list Z) (v : jsval) : bool :=
  match v with
  | JNum z => existsb (Z.eqb z) a
  | _ => false
  end.

(** ** The page URL and its search parameters

    [window.location.search] and [new URL(window.location).searchParams]
    are platform objects; they are modelled after the URL standard
    (application/x-www-form-urlencoded parsing).  Decoding the bytes as
    UTF-8 is the identity on byte strings. *)

(** The page URL, reduced to the component [main.js] reads: its query,
    which is absent ([None]) when the URL has no [?]. *)
Record page_url : Type := { url_query : option string }.

(** [window.location.search]: empty for an absent or empty query, else
    ["?"] followed by the query. *)
Definition location_search (u : page_url) : string :=
  match url_query u with
  | None => ""
  | Some q => if String.eqb q "" then "" else "?" +:+ q
  end.

Definition hex_digit (c : ascii) : option nat :=
  let n := nat_of_ascii c in
  if (48 <=? n)%nat && (n <=? 57)%nat then Some (n - 48)%nat
  else if (65 <=? n)%nat && (n <=? 70)%nat then Some (n - 55)%nat
  else if (97 <=? n)%nat && (n <=? 102)%nat then Some (n - 87)%nat
  else None.

(** Percent-decoding: [%XY] with two hex digits is one byte, anything else
    is kept. *)
Fixpoint percent_decode (s : string) : string :=
  match s with
  | EmptyString => EmptyString
  | String c rest =>
      if Ascii.eqb c "%" then
        match rest with
        | String h (String l rest') =>
            match hex_digit h, hex_digit l with
            | Some a, Some b =>
                String (ascii_of_nat (16 * a + b)) (percent_decode rest')
            | _, _ => String c (percent_decode rest)
            end
        | _ => String c (percent_decode rest)
        end
      else String c (percent_decode rest)
  end.

Fixpoint plus_to_space (s : string) : string :=
  match s with
  | EmptyString => EmptyString
  | String c rest =>
      String (if Ascii.eqb c "+" then " "%char else c) (plus_to_space rest)
  end.

(** Cut a sequence at its first ["="]: the name, and the value (empty when
    there is no ["="]). *)
Fixpoint cut_pair (s : string) : string * string :=
  match s with
  | EmptyString => (EmptyString, EmptyString)
  | String c rest =>
      if Ascii.eqb c "=" then (EmptyString, rest)
      else let '(n, v) := cut_pair rest in (String c n, v)
  end.

Definition decode_component (s : string) : string :=
  percent_decode (plus_to_space s).

(** The urlencoded parser: split on ["&"], skip empty sequences, cut each
    at its first ["="], decode name and value. *)
Definition parse_urlencoded (q : string) : list (string * string) :=
  map (fun seq => let '(n, v) := cut_pair seq in
                  (decode_component n, decode_component v))
      (filter (fun seq => seq <> EmptyString) (str_split "&" q)).

(** [new URL(window.location).searchParams]. *)
Definition searchParams (u : page_url) : list (string * string) :=
  match url_query u with
  | None => []
  | Some q => parse_urlencoded q
  end.

(** [params.get(name)]: the value of the first pair with that name, [null]
    when there is none. *)
Fixpoint searchParams_get (params : list (string * string)) (name : string)
  : jsval :=
  match params with
  | [] => JNull
  | (n, v) :: rest =>
      if String.eqb n name then JStr v else searchParams_get rest name
  end.

(** ** The host platform

    What the browser provides and the code only calls: numbers with their
    [ToString] (template literals), and the formatting of a parsed local
    time,
    [new Date(s).toLocaleDateString('en', {month: 'long', day: 'numeric'})]
    and
    [new Date(s).toLocaleTimeString('en', {hour: 'numeric', minute: 'numeric', hourCycle: 'h12'})]. *)
Class Platform : Type := {
  number : Type;
  number_toString : number -> string;
  toLocaleDateString : string -> string;
  toLocaleTimeString : string -> string
}.

Section Code.

Context {P : Platform}.

(** ** [utils.js]: [useLocation] *)

Record coordinates : Type := { latitude : number; longitude : number }.

(** What the device does with one [getCurrentPosition] request: it calls
    the success callback with a position, calls the error callback with an
    error code (1 permission denied, 2 position unavailable, 3 timeout), or
    calls neither (a permission prompt left unanswered). *)
Inductive geo_answer : Type :=
| GeoPosition (coords : coordinates)
| GeoError (code : Z)
| GeoSilent.

Record position_options : Type := {
  enableHighAccuracy : bool;
  timeout : Z;
  maximumAge : Z
}.

(** [navigator]: [geolocation] is [None] where the browser has no
    geolocation support; [language] is [None] where it is undefined. *)
Record navigator : Type := {
  geolocation : option geo_answer;
  language : option string
}.

(** [navigator.geolocation.getCurrentPosition(success, error, options)],
    the callbacks acting on the promise they close over.  The request is
    recorded in the list of requests made to the device. *)
Definition getCurrentPosition (g : geo_answer)
    (success : coordinates -> promise string -> promise string)
    (error : Z -> promise string -> promise string)
    (options : position_options)
    (requests : list position_options) (p : promise string)
  : promise string * list position_options :=
  (match g with
   | GeoPosition c => success c p
   | GeoError e => error e p
   | GeoSilent => p
   end, requests ++ [options]).

Definition useLocation (nav : navigator) (requests : list position_options)
  : promise string * list position_options :=
  match geolocation nav with
  | Some g =>
      getCurrentPosition g
        (fun coords =>
           resolve (number_toString (latitude coords) +:+ ","
                    +:+ number_toString (longitude coords)))
        (fun _ => resolve "auto:ip")
        {| enableHighAccuracy := true; timeout := 5000; maximumAge := 0 |}
        requests Pending
  | None => (resolve "auto:ip" Pending, requests)
  end.

(** ** [utils.js]: [useLanguage] *)

Definition useLanguage (nav : navigator) : promise jsval :=
  match language nav with
  | Some l =>
      if truthy (JStr l) then resolve (at_index (str_split "-" l) 0) Pending
      else resolve (JStr "en") Pending
  | None => resolve (JStr "en") Pending
  end.

(** ** [utils.js]: [useGradient] *)

(** The table [conditions] that [utils.js] imports from
    [condition-codes.js], one array of codes per category, is a parameter
    of [useGradient]. *)
Record condition_codes : Type := {
  sunny : list Z;
  rainy : list Z;
  cloudy : list Z;
  drizzle : list Z;
  overcast : list Z;
  foggy : list Z
}.

Record condition : Type := {
  text : string;
  code : jsval;
  icon : jsval
}.

(** [icon.includes('day')] throws a TypeError unless [icon] is a string;
    the [switch (true)] takes the first case whose test is [true]. *)
Definition useGradient (conditions : condition_codes) (c : condition)
  : completion string :=
  match icon c with
  | JStr i =>
      let isDay := str_includes i "day" in
      if arr_includes (sunny conditions) (code c) then
        Normal (if isDay then "--from: var(--orange); --to: var(--yellow)"
                else "--from: var(--navy); --to: var(--blue)")
      else if arr_includes (rainy conditions) (code c)
              || arr_includes (cloudy conditions) (code c) then
        Normal (if isDay then "--from: var(--blue); --to: var(--aqua)"
                else "--from: var(--navy); --to: var(--blue)")
      else if arr_includes (drizzle conditions) (code c) then
        Normal (if isDay then "--from: var(--blue); --to: var(--teal)"
                else "--from: var(--navy); --to: var(--teal)")
      else if arr_includes (overcast conditions) (code c) then
        Normal (if isDay then "--from: var(--navy); --to: var(--teal)"
                else "--from: var(--navy); --to: var(--olive)")
      else if arr_includes (foggy conditions) (code c) then
        Normal (if isDay then "--from: var(--blue); --to: var(--olive)"
                else "--from: var(--navy); --to: var(--olive)")
      else
        Normal (if isDay then "--from: var(--blue); --to: var(--aqua)"
                else "--from: var(--navy); --to: var(--blue)")
  | _ => Throw "TypeError"
  end.

(** ** The document

    DOM nodes are trees.  A [DocumentFragment] is an object with identity:
    the document keeps the fragments that were built, by reference, since
    appending a fragment moves its children out of it. *)
#[warnings="-register-all"] Inductive node : Type :=
| Text (data : string)
| Element (tag : string) (attrs : list (string * jsval))
    (children : list node).

(** [title] is [document.title]; [container] holds the children of the
    element with id [app] ([None] when the page has no such element);
    [fragments] are the fragments built so far. *)
Record document : Type := {
  title : string;
  container : option (list node);
  fragments : gmap nat (list node)
}.

(** Code that mutates the document and may throw. *)
Definition DOM (A : Type) : Type := document -> completion A * document.

Definition ret {A : Type} (a : A) : DOM A := fun d => (Normal a, d).

Definition throw {A : Type} (e : string) : DOM A := fun d => (Throw e, d).

Definition bind {A B : Type} (m : DOM A) (k : A -> DOM B) : DOM B :=
  fun d =>
    match m d with
    | (Normal a, d') => k a d'
    | (Throw e, d') => (Throw e, d')
    end.

Notation "x <- m ;; k" := (bind m (fun x => k))
  (at level 100, m at next level, right associativity).
Notation "m ;;; k" := (bind m (fun _ => k))
  (at level 100, right associativity).

(** [document.title = s]. *)
Definition set_title (s : string) : DOM unit := fun d =>
  (Normal tt,
   {| title := s; container := container d; fragments := fragments d |}).

(** [$('#app').innerHTML = null]: a TypeError when [$('#app')] is [null],
    else the element loses all its children. *)
Definition clear_app : DOM unit := fun d =>
  match container d with
  | None => (Throw "TypeError", d)
  | Some _ =>
      (Normal tt,
       {| title := title d; container := Some []; fragments := fragments d |})
  end.

(** [$('#app').appendChild(app)] for a fragment [app]: its children are
    moved to the end of the element's children and the fragment is left
    empty.  A TypeError when [$('#app')] is [null] or [app] is no node. *)
Definition appendChild_app (app : nat) : DOM unit := fun d =>
  match container d with
  | None => (Throw "TypeError", d)
  | Some present =>
      match fragments d !! app with
      | None => (Throw "TypeError", d)
      | Some moved =>
          (Normal tt,
           {| title := title d;
              container := Some (present ++ moved);
              fragments := <[app := []]> (fragments d) |})
      end
  end.

(** ** [utils.js]: [render] *)

Definition render (app : nat) : DOM unit :=
  clear_app ;;; appendChild_app app.

(** ** [main.js] *)

Record location_fields : Type := {
  name : string;
  country : string;
  localtime : string
}.

Record current_fields : Type := {
  temp_f : number;
  current_condition : condition;
  wind_mph : number;
  humidity : number;
  pressure_mb : number
}.

(** The payload of the weather API. *)
Record WeatherResponse : Type := {
  location : location_fields;
  current : current_fields
}.

(** The [data] of one emission of the observable: a primitive value
    ([undefined] before the first fetch resolves) or a payload object. *)
Inductive emitted : Type :=
| Prim (v : jsval)
| Payload (p : WeatherResponse).

Definition emitted_truthy (data : emitted) : bool :=
  match data with
  | Prim v => truthy v
  | Payload _ => true
  end.

(** [html`...`] with several root elements: a new fragment holding the
    nodes of the template. *)
Definition html (nodes : list node) : DOM nat := fun d =>
  let r := fresh (dom (fragments d)) in
  (Normal r,
   {| title := title d; container := container d;
      fragments := <[r := nodes]> (fragments d) |}).

(** The inner template of [stats.map]. *)
Definition stats_item (stat : string * string) : node :=
  let '(icon, value) := stat in
  Element "li" [("class", JStr "stats")]
    [ Element "img" [("src", JStr ("/img/icons/" +:+ icon +:+ ".svg"));
                     ("alt", JStr icon)] [];
      Element "span" [] [Text value] ].

(** The nodes of the template [App].  The white space of the template
    literal around tags and interpolations is not kept. *)
Definition App (location : location_fields) (current : current_fields)
  : list node :=
  let stats :=
    [ ("wind", number_toString (wind_mph current) +:+ " mph");
      ("humidity", number_toString (humidity current) +:+ "%");
      ("pressure", number_toString (pressure_mb current) +:+ " mb") ] in
  [ Element "section" [("class", JStr "weather")]
      [ Element "span" [("class", JStr "temperature")]
          [Text (number_toString (temp_f current)); Text "°F"];
        Element "span" [("class", JStr "condition")]
          [Text (text (current_condition current))] ];
    Element "section" [("class", JStr "details")]
      [ Element "h1" [("class", JStr "location")] [Text (name location)];
        Element "time"
          [("class", JStr "date");
           ("datetime", at_index (str_split " " (localtime location)) 0)]
          [Text (toLocaleDateString (localtime location))];
        Element "time"
          [("class", JStr "time");
           ("datetime", at_index (str_split " " (localtime location)) 1)]
          [Text (toLocaleTimeString (localtime location))];
        Element "ul" [] (map stats_item stats) ] ].

(** The callback given to [observable.watch].  A truthy [data] that is no
    object has no [current]: reading [current.wind_mph] throws. *)
Definition watch_callback (data : emitted) : DOM unit :=
  if emitted_truthy data then
    match data with
    | Payload p =>
        app <- html (App (location p) (current p)) ;;
        set_title ("Weather forecast in " +:+ name (location p) +:+ ", "
                   +:+ country (location p)) ;;;
        render app
    | Prim _ => throw "TypeError"
    end
  else ret tt.

(** The window at [DOMContentLoaded]. *)
Record window : Type := {
  window_location : page_url;
  window_navigator : navigator
}.

(** How the handler ends: it has created [SWR(location, fetcher)] with the
    key [location], or it is suspended for ever on a promise that is never
    settled, or it has thrown. *)
Inductive subscription : Type :=
| Subscribed (key : jsval)
| Suspended
| Failed (e : string).

(** The [DOMContentLoaded] handler up to the creation of the observable,
    threading the requests made to the geolocation device. *)
Definition DOMContentLoaded (w : window) (requests : list position_options)
  : subscription * list position_options :=
  if truthy (JStr (location_search (window_location w))) then
    (Subscribed (searchParams_get (searchParams (window_location w)) "q"),
     requests)
  else
    match useLocation (window_navigator w) requests with
    | (Fulfilled l, requests') => (Subscribed (JStr l), requests')
    | (Pending, requests') => (Suspended, requests')
    | (Rejected e, requests') => (Failed e, requests')
    end.

End Code.

(** ** Reading the rendered page

    What a test of the page observes: the text of the first element of a
    given class below [#app]. *)

Fixpoint textContent (n : node) : string :=
  match n with
  | Text data => data
  | Element _ _ children => String.concat "" (map textContent children)
  end.

Definition has_class (cls : string) (attrs : list (string * jsval)) : bool :=
  existsb (fun '(k, v) =>
             String.eqb k "class"
             && match v with JStr c => String.eqb c cls | _ => false end)
          attrs.

(** The first element of class [cls], in document order, in the tree [n]. *)
Fixpoint element_of_class (cls : string) (n : node) : option node :=
  match n with
  | Text _ => None
  | Element _ attrs children =>
      if has_class cls attrs then Some n
      else (fix first (l : list node) : option node :=
              match l with
              | [] => None
              | k :: l' =>
                  match element_of_class cls k with
                  | Some r => Some r
                  | None => first l'
                  end
              end) children
  end.

Fixpoint first_of_class (cls : string) (l : list node) : option node :=
  match l with
  | [] => None
  | k :: l' =>
      match element_of_class cls k with
      | Some r => Some r
      | None => first_of_class cls l'
      end
  end.

(** The text of [#app .temperature]. *)
Definition displayed_temperature (d : document) : option string :=
  match container d with
  | Some children => textContent <$> first_of_class "temperature" children
  | None => None
  end.

(** ** The vocabulary of the specification *)

(** [s] contains [sub] as a substring. *)
Definition contains (s sub : string) : Prop :=
  exists pre post, s = pre +:+ sub +:+ post.

(** The decision order of the specification's gradient mapper, as a list
    of rules tried in order: sunny, rainy-or-cloudy, drizzle, overcast,
    foggy; the default applies when none does. *)
Record gradient_rule : Type := {
  applies : jsval -> bool;
  by_day : string;
  by_night : string
}.

Definition gradient_rules (conditions : condition_codes)
  : list gradient_rule :=
  [ {| applies := arr_includes (sunny conditions);
       by_day := "--from: var(--orange); --to: var(--yellow)";
       by_night := "--from: var(--navy); --to: var(--blue)" |};
    {| applies := fun c => arr_includes (rainy conditions) c
                           || arr_includes (cloudy conditions) c;
       by_day := "--from: var(--blue); --to: var(--aqua)";
       by_night := "--from: var(--navy); --to: var(--blue)" |};
    {| applies := arr_includes (drizzle conditions);
       by_day := "--from: var(--blue); --to: var(--teal)";
       by_night := "--from: var(--navy); --to: var(--teal)" |};
    {| applies := arr_includes (overcast conditions);
       by_day := "--from: var(--navy); --to: var(--teal)";
       by_night := "--from: var(--navy); --to: var(--olive)" |};
    {| applies := arr_includes (foggy conditions);
       by_day := "--from: var(--blue); --to: var(--olive)";
       by_night := "--from: var(--navy); --to: var(--olive)" |} ].

Definition default_rule : gradient_rule :=
  {| applies := fun _ => true;
     by_day := "--from: var(--blue); --to: var(--aqua)";
     by_night := "--from: var(--navy); --to: var(--blue)" |}.

(** First matching rule wins. *)
Definition first_match (rules : list gradient_rule) (c : jsval)
  : gradient_rule :=
  match List.find (fun r => applies r c) rules with
  | Some r => r
  | None => default_rule
  end.

Definition gradient_of_rule (r : gradient_rule) (is_day : bool) : string :=
  if is_day then by_day r else by_night r.

(** ** Data to run the code on *)

(** A platform whose numbers are the integers, printed in decimal; its
    formatters answer for the local time ["2024-01-01 13:00"]. *)
Definition integer_platform : Platform :=
  {| number := Z;
     number_toString := pretty;
     toLocaleDateString := fun _ => "January 1";
     toLocaleTimeString := fun _ => "1:00 PM" |}.

(** A condition table in the shape of [condition-codes.js]. *)
Definition sample_conditions : condition_codes :=
  {| sunny := [1000];
     rainy := [1063; 1180; 1183; 1186; 1189; 1192; 1195];
     cloudy := [1003; 1006];
     drizzle := [1150; 1153; 1168; 1171];
     overcast := [1009];
     foggy := [1030; 1135; 1147] |}.

Section Samples.

#[local] Existing Instance integer_platform.

(** The mocked payload of the end-to-end test. *)
Definition paris : WeatherResponse :=
  {| location :=
       {| name := "Paris"; country := "France";
          localtime := "2024-01-01 13:00" |};
     current :=
       {| temp_f := 50;
          current_condition :=
            {| text := "Clear"; code := JNum 1000; icon := JStr "day.png" |};
          wind_mph := 5;
          humidity := 60;
          pressure_mb := 1012 |} |}.

(** The page opened at [?q=Paris]; the device would leave a request
    unanswered. *)
Definition paris_window : window :=
  {| window_location := {| url_query := Some "q=Paris" |};
     window_navigator :=
       {| geolocation := Some GeoSilent; language := Some "fr-FR" |} |}.

(** The page opened at [?foo=bar]; the device would answer a request. *)
Definition foo_window : window :=
  {| window_location := {| url_query := Some "foo=bar" |};
     window_navigator :=
       {| geolocation :=
            Some (GeoPosition {| latitude := 48; longitude := 2 |});
          language := Some "en-US" |} |}.

(** A browser without geolocation support, set to Filipino. *)
Definition fil_navigator : navigator :=
  {| geolocation := None; language := Some "fil-PH" |}.

(** A browser whose user denies the permission, set to US English. *)
Definition denying_navigator : navigator :=
  {| geolocation := Some (GeoError 1); language := Some "en-US" |}.

(** A condition of no category of [sample_conditions], by night. *)
Definition thunder_by_night : condition :=
  {| text := "Patchy light rain with thunder";
     code := JNum 1273;
     icon := JStr "//cdn.weatherapi.com/weather/64x64/night/386.png" |}.

(** A page whose [#app] holds a stale node, after the template of [paris]
    has been built twice: the fragments [0] and [1] hold equal nodes. *)
Definition page_with_two_builds : document :=
  let stale :=
    {| title := "Weather"; container := Some [Text "Loading"];
       fragments := ∅ |} in
  snd (html (App (location paris) (current paris))
         (snd (html (App (location paris) (current paris)) stale))).

End Samples.

(** A page with an empty [#app] and no fragment built yet. *)
Definition blank_page : document :=
  {| title := ""; container := Some []; fragments := ∅ |}.

(** ** [utils.js]: [fetcher] *)

(** The three values [utils.js] imports from [config.js]; they are
    parameters of [fetcher]. *)
Record config : Type := {
  ApiUrl : string;
  ApiHost : string;
  ApiKey : string
}.

(** What [fetcher] hands to [fetch]. *)
Record request : Type := {
  url : string;
  method : string;
  headers : list (string * string)
}.

(** ToString, as a template literal applies it to an interpolated value. *)
Definition to_string (v : jsval) : string :=
  match v with
  | JUndefined => "undefined"
  | JNull => "null"
  | JBool true => "true"
  | JBool false => "false"
  | JNum z => pretty z
  | JStr s => s
  end.

Section Fetcher.

Context {P : Platform}.

(** A response, reduced to the promise its [json()] returns. *)
Record response : Type := { json : promise emitted }.

(** [fetcher(location)], with the network as the function [fetch] and the
    requests handed to it threaded.  An [await] on a rejected promise
    rejects the promise of [fetcher]; on a pending one it never resumes. *)
Definition fetcher (cfg : config) (nav : navigator)
    (fetch : request -> promise response)
    (location : jsval) (sent : list request)
  : promise emitted * list request :=
  match useLanguage nav with
  | Fulfilled language =>
      let req :=
        {| url := ApiUrl cfg +:+ "?q=" +:+ to_string location +:+ "&lang="
                  +:+ to_string language;
           method := "GET";
           headers := [("X-RapidAPI-Host", ApiHost cfg);
                       ("X-RapidAPI-Key", ApiKey cfg)] |} in
      match fetch req with
      | Fulfilled data => (json data, sent ++ [req])
      | Pending => (Pending, sent ++ [req])
      | Rejected e => (Rejected e, sent ++ [req])
      end
  | Pending => (Pending, sent)
  | Rejected e => (Rejected e, sent)
  end.

End Fetcher.

(** The request of the external interface:
    [GET {ApiUrl}?q={location}&lang={language}] with the two API-key
    headers. *)
Definition weather_request (cfg : config) (location language : string)
  : request :=
  {| url := ApiUrl cfg +:+ "?q=" +:+ location +:+ "&lang=" +:+ language;
     method := "GET";
     headers := [("X-RapidAPI-Host", ApiHost cfg);
                 ("X-RapidAPI-Key", ApiKey cfg)] |}.

(** ** Reading a request URL

    The query of a URL string, as the URL parser cuts it: the fragment
    starts at the first ["#"], the query at the first ["?"] before it.  The
    percent-encoding the parser applies to some bytes of the query, which
    the urlencoded decoder undoes, is left out. *)

Fixpoint before_char (c : ascii) (s : string) : string :=
  match s with
  | EmptyString => EmptyString
  | String a rest =>
      if Ascii.eqb a c then EmptyString else String a (before_char c rest)
  end.



(** ** Reading more of the rendered page *)

(** A tree in document order. *)
Fixpoint descendants (n : node) : list node :=
  n :: match n with
       | Text _ => []
       | Element _ _ children => flat_map descendants children
       end.

Definition node_has_class (cls : string) (n : node) : bool :=
  match n with
  | Text _ => false
  | Element _ attrs _ => has_class cls attrs
  end.

Definition node_has_tag (t : string) (n : node) : bool :=
  match n with
  | Text _ => false
  | Element tag _ _ => String.eqb tag t
  end.

(** The value of the first attribute of that name, if any. *)
Definition attribute (name : string) (n : node) : option jsval :=
  match n with
  | Text _ => None
  | Element _ attrs _ =>
      snd <$> List.find (fun kv => String.eqb (fst kv) name) attrs
  end.

(** The elements below [#app] that satisfy [sel], in document order. *)
Definition selected (sel : node -> bool) (d : document) : list node :=
  match container d with
  | Some children => List.filter sel (flat_map descendants children)
  | None => []
  end.


(** The values of the attribute [name] of the elements that satisfy
    [sel]. *)
Definition attributes (sel : node -> bool) (name : string) (d : document)
  : list (option jsval) :=
  map (attribute name) (selected sel d).

(** ** More data to run the code on *)

Definition sample_config : config :=
  {| ApiUrl := "https://weatherapi-com.p.rapidapi.com/current.json";
     ApiHost := "weatherapi-com.p.rapidapi.com";
     ApiKey := "key" |}.

(** A page without the [#app] element. *)
Definition page_without_app : document :=
  {| title := "Weather"; container := None; fragments := ∅ |}.

Section MoreSamples.

#[local] Existing Instance integer_platform.

(** A network that answers every request with the mocked payload. *)
Definition paris_network (_ : request) : promise response :=
  Fulfilled {| json := Fulfilled (Payload paris) |}.

(** A network that is down. *)
Definition failing_network (_ : request) : promise response :=
  Rejected "TypeError: Failed to fetch".

(** The mocked payload with another condition code and icon. *)
Definition paris_by_night : WeatherResponse :=
  {| location := location paris;
     current :=
       {| temp_f := temp_f (current paris);
          current_condition :=
            {| text := "Clear"; code := JNum 1009; icon := JStr "night.png" |};
          wind_mph := wind_mph (current paris);
          humidity := humidity (current paris);
          pressure_mb := pressure_mb (current paris) |} |}.

(** The page opened without a query; the device answers with a
    position. *)
Definition plain_window : window :=
  {| window_location := {| url_query := None |};
     window_navigator := window_navigator foo_window |}.

(** The position the device of [foo_window] answers with. *)
Definition device_position : coordinates :=
  {| latitude := 48; longitude := 2 |}.

(** The page opened without a query in a browser whose user denies the
    permission. *)
Definition denied_window : window :=
  {| window_location := {| url_query := None |};
     window_navigator := denying_navigator |}.


End MoreSamples.

(** * Properties *)

(** ** Strings *)

(** [String.append] is never unfolded by [simpl]: its two equations are
    used as rewrite rules. *)
Lemma append_nil_l (s : string) : "" +:+ s = s.
Proof. reflexivity. Qed.

Lemma append_cons (c : ascii) (s t : string) :
  String c s +:+ t = String c (s +:+ t).
Proof. reflexivity. Qed.

Create Rewrite HintDb str.
#[local] Hint Rewrite append_nil_l append_cons : str.

Ltac str_norm := autorewrite with str in *.

Lemma prefix_spec (n s : string) :
  String.prefix n s = true <-> exists post, s = n +:+ post.
Proof.
  revert s. induction n as [|a n IH]; intros s.
  - destruct s; simpl; split; eauto.
  - destruct s as [|b s]; simpl.
    + split; [discriminate | intros [post H]; discriminate].
    + destruct (ascii_dec a b) as [->|Hab].
      * rewrite IH. split; intros [post H]; exists post; str_norm; congruence.
      * split; [discriminate | intros [post H]; str_norm; congruence].
Qed.

Lemma contains_nil (n : string) : contains "" n -> n = "".
Proof.
  intros [pre [post H]]. destruct pre; str_norm; [|discriminate].
  destruct n; [reflexivity | discriminate].
Qed.

Lemma contains_cons (c : ascii) (s n : string) :
  contains (String c s) n <->
  (exists post, String c s = n +:+ post) \/ contains s n.
Proof.
  split.
  - intros [pre [post H]]. destruct pre as [|c' pre]; str_norm.
    + left. eauto.
    + right. exists pre, post. congruence.
  - intros [[post H] | [pre [post H]]].
    + exists "", post. exact H.
    + exists (String c pre), post. str_norm. congruence.
Qed.

(** [str_includes] decides [contains]. *)
Lemma str_includes_spec (s n : string) :
  str_includes s n = true <-> contains s n.
Proof.
  induction s as [|c s IH].
  - destruct n as [|a n]; simpl.
    + split; [|reflexivity]. intros _. exists "", "". reflexivity.
    + split; [discriminate|]. intros Hc. apply contains_nil in Hc.
      discriminate.
  - change (str_includes (String c s) n)
      with (if String.prefix n (String c s) then true else str_includes s n).
    rewrite contains_cons, <- IH, <- prefix_spec.
    destruct (String.prefix n (String c s)); intuition congruence.
Qed.

Lemma str_includes_false (s n : string) :
  ~ contains s n -> str_includes s n = false.
Proof.
  intros H. destruct (str_includes s n) eqn:E; [|reflexivity].
  apply str_includes_spec in E. contradiction.
Qed.

Lemma str_split_no_sep (sep : ascii) (s : string) :
  ~ contains s (String sep "") -> str_split sep s = [s].
Proof.
  induction s as [|c s IH]; intros Hfree; simpl; [reflexivity|].
  destruct (Ascii.eqb c sep) eqn:E.
  - apply Ascii.eqb_eq in E as ->. exfalso. apply Hfree.
    exists "", s. reflexivity.
  - rewrite IH; [reflexivity|].
    intros Hc. apply Hfree. apply contains_cons. right. exact Hc.
Qed.

(** The first piece of a split is what stands before the first separator. *)
Lemma str_split_first (sep : ascii) (pre post : string) :
  ~ contains pre (String sep "") ->
  str_split sep (pre +:+ String sep post) = pre :: str_split sep post.
Proof.
  induction pre as [|c pre IH]; intros Hfree; str_norm; simpl.
  - rewrite Ascii.eqb_refl. reflexivity.
  - destruct (Ascii.eqb c sep) eqn:E.
    + apply Ascii.eqb_eq in E as ->. exfalso. apply Hfree.
      exists "", pre. reflexivity.
    + rewrite IH; [reflexivity|].
      intros Hc. apply Hfree. apply contains_cons. right. exact Hc.
Qed.

Lemma str_split_head (sep : ascii) (s : string) :
  exists w ws, str_split sep s = w :: ws.
Proof.
  induction s as [|c s [w [ws IH]]]; simpl; [eauto|].
  destruct (Ascii.eqb c sep); [eauto|]. rewrite IH. eauto.
Qed.

Section Properties.

Context {P : Platform}.

(** ** [useLanguage] *)

(** C6, as the code has it: the language resolver always resolves, with the
    substring before the first hyphen of the locale (whatever its length),
    with the whole locale when it has no hyphen, and with ["en"] when the
    locale is undefined or empty. *)
Theorem useLanguage_primary_subtag (nav : navigator) :
  (forall pre post : string,
      language nav = Some (pre +:+ "-" +:+ post) ->
      ~ contains pre "-" ->
      useLanguage nav = Fulfilled (JStr pre)) /\
  (forall l : string,
      language nav = Some l -> l <> "" -> ~ contains l "-" ->
      useLanguage nav = Fulfilled (JStr l)) /\
  (language nav = None \/ language nav = Some "" ->
   useLanguage nav = Fulfilled (JStr "en")) /\
  (exists s : string, useLanguage nav = Fulfilled (JStr s)).
Proof.
  unfold useLanguage. repeat split.
  - intros pre post -> Hfree.
    assert (Hne : truthy (JStr (pre +:+ "-" +:+ post)) = true).
    { destruct pre; reflexivity. }
    rewrite Hne. change ("-" +:+ post) with (String "-" post).
    rewrite str_split_first by exact Hfree. reflexivity.
  - intros l -> Hne Hfree.
    assert (Ht : truthy (JStr l) = true).
    { destruct l; [contradiction | reflexivity]. }
    rewrite Ht, str_split_no_sep by exact Hfree. reflexivity.
  - intros [-> | ->]; reflexivity.
  - destruct (language nav) as [l|]; [|eexists; reflexivity].
    destruct (truthy (JStr l)); [|eexists; reflexivity].
    destruct (str_split_head "-" l) as [w [ws ->]]. eexists. reflexivity.
Qed.

(** ** [useLocation] *)

(** C7: without geolocation support, and when the geolocation attempt
    fails (the error callback is called, with any error code), the location
    resolver resolves with ["auto:ip"]. *)
Theorem useLocation_falls_back (nav : navigator)
    (requests : list position_options) :
  geolocation nav = None \/ (exists e, geolocation nav = Some (GeoError e)) ->
  fst (useLocation nav requests) = Fulfilled "auto:ip".
Proof.
  unfold useLocation. intros [-> | [e ->]]; reflexivity.
Qed.

(** ** The [DOMContentLoaded] handler *)

Lemma searchParams_get_In (params : list (string * string)) (n v : string) :
  searchParams_get params n = JStr v -> In (n, v) params.
Proof.
  induction params as [|[n' v'] params IH]; simpl; [discriminate|].
  destruct (String.eqb n' n) eqn:E.
  - apply String.eqb_eq in E as ->. intros [= ->]. left. reflexivity.
  - intros H. right. exact (IH H).
Qed.

Lemma searchParams_get_present (params : list (string * string))
    (n v0 : string) :
  In (n, v0) params -> exists v, searchParams_get params n = JStr v.
Proof.
  induction params as [|[n' v'] params IH]; simpl; [contradiction|].
  intros [[= -> ->] | H].
  - rewrite String.eqb_refl. eauto.
  - destruct (String.eqb n' n); eauto.
Qed.

Lemma searchParams_get_absent (params : list (string * string)) (n : string) :
  (forall v, ~ In (n, v) params) -> searchParams_get params n = JNull.
Proof.
  induction params as [|[n' v'] params IH]; simpl; intros H; [reflexivity|].
  destruct (String.eqb n' n) eqn:E.
  - apply String.eqb_eq in E as ->. exfalso. apply (H v'). left. reflexivity.
  - apply IH. intros v Hv. apply (H v). right. exact Hv.
Qed.

(** A non-empty query makes [window.location.search] truthy. *)
Lemma search_truthy_of_query (u : page_url) (q : string) :
  url_query u = Some q -> q <> "" ->
  truthy (JStr (location_search u)) = true.
Proof.
  unfold location_search. intros -> Hq.
  destruct q; [contradiction | reflexivity].
Qed.

(** A URL with a search parameter has a non-empty query. *)
Lemma search_truthy_of_param (u : page_url) (n v : string) :
  In (n, v) (searchParams u) -> truthy (JStr (location_search u)) = true.
Proof.
  unfold searchParams. destruct (url_query u) as [q|] eqn:Hq; [|contradiction].
  intros H. apply (search_truthy_of_query u q Hq).
  intros ->. exact H.
Qed.

(** C1: when the page URL carries a [q] parameter, the key of the data
    source is the value [searchParams.get('q')] gives for it, as it is, and
    no request is made to the geolocation device. *)
Theorem q_parameter_is_the_location (w : window) (v0 : string)
    (requests : list position_options) :
  In ("q", v0) (searchParams (window_location w)) ->
  exists v : string,
    In ("q", v) (searchParams (window_location w)) /\
    searchParams_get (searchParams (window_location w)) "q" = JStr v /\
    DOMContentLoaded w requests = (Subscribed (JStr v), requests).
Proof.
  intros Hq. unfold DOMContentLoaded.
  rewrite (search_truthy_of_param _ _ _ Hq).
  destruct (searchParams_get_present _ _ _ Hq) as [v Hv].
  exists v. rewrite Hv.
  split; [apply searchParams_get_In; exact Hv | split; reflexivity].
Qed.

(** C2: when the query of the page URL is not empty and has no [q]
    parameter, the key of the data source is [null] and no request is made
    to the geolocation device. *)
Theorem query_without_q_gives_null (w : window) (q : string)
    (requests : list position_options) :
  url_query (window_location w) = Some q -> q <> "" ->
  (forall v, ~ In ("q", v) (searchParams (window_location w))) ->
  DOMContentLoaded w requests = (Subscribed JNull, requests).
Proof.
  intros Hq Hne Hno. unfold DOMContentLoaded.
  rewrite (search_truthy_of_query _ _ Hq Hne).
  rewrite (searchParams_get_absent _ _ Hno). reflexivity.
Qed.

(** A request to the device is visible in the list the handler threads. *)
Lemma useLocation_requests (nav : navigator)
    (requests : list position_options) :
  snd (useLocation nav requests) =
  match geolocation nav with
  | Some _ =>
      requests ++
      [{| enableHighAccuracy := true; timeout := 5000; maximumAge := 0 |}]
  | None => requests
  end.
Proof. unfold useLocation. destruct (geolocation nav); reflexivity. Qed.

(** ** [useGradient] *)

Lemma arr_includes_In (a : list Z) (z : Z) :
  arr_includes a (JNum z) = true <-> In z a.
Proof.
  simpl. rewrite existsb_exists. split.
  - intros [x [Hx E]]. apply Z.eqb_eq in E as ->. exact Hx.
  - intros H. exists z. split; [exact H | apply Z.eqb_refl].
Qed.

Lemma arr_includes_not_In (a : list Z) (z : Z) :
  ~ In z a -> arr_includes a (JNum z) = false.
Proof.
  intros H. destruct (arr_includes a (JNum z)) eqn:E; [|reflexivity].
  apply arr_includes_In in E. contradiction.
Qed.

(** C3: for a code of the sunny category, the gradient is orange/yellow
    when the icon name contains ["day"] and navy/blue when it does not. *)
Theorem sunny_gradient (conditions : condition_codes) (c : condition)
    (z : Z) (i : string) :
  code c = JNum z -> In z (sunny conditions) -> icon c = JStr i ->
  (contains i "day" ->
   useGradient conditions c
   = Normal "--from: var(--orange); --to: var(--yellow)") /\
  (~ contains i "day" ->
   useGradient conditions c
   = Normal "--from: var(--navy); --to: var(--blue)").
Proof.
  intros Hc Hz Hi. unfold useGradient. rewrite Hi, Hc.
  apply arr_includes_In in Hz. rewrite Hz. split; intros Hday.
  - apply str_includes_spec in Hday. rewrite Hday. reflexivity.
  - rewrite (str_includes_false _ _ Hday). reflexivity.
Qed.

(** C4: for a code of no category, the gradient is the default one:
    blue/aqua when the icon name contains ["day"], navy/blue when it does
    not. *)
Theorem unmatched_code_gradient (conditions : condition_codes)
    (c : condition) (z : Z) (i : string) :
  code c = JNum z -> icon c = JStr i ->
  ~ In z (sunny conditions) -> ~ In z (rainy conditions) ->
  ~ In z (cloudy conditions) -> ~ In z (drizzle conditions) ->
  ~ In z (overcast conditions) -> ~ In z (foggy conditions) ->
  (contains i "day" ->
   useGradient conditions c
   = Normal "--from: var(--blue); --to: var(--aqua)") /\
  (~ contains i "day" ->
   useGradient conditions c
   = Normal "--from: var(--navy); --to: var(--blue)").
Proof.
  intros Hc Hi Hs Hr Hcl Hd Ho Hf. unfold useGradient. rewrite Hi, Hc.
  rewrite !arr_includes_not_In by assumption. simpl.
  split; intros Hday.
  - apply str_includes_spec in Hday. rewrite Hday. reflexivity.
  - rewrite (str_includes_false _ _ Hday). reflexivity.
Qed.

(** C5: on a condition whose icon is a string and whose code is an
    integer, [useGradient] does not throw: it returns the gradient of the
    first rule that applies, the rules being tried in the order sunny,
    rainy-or-cloudy, drizzle, overcast, foggy, and the default gradient
    when none applies. *)
Theorem useGradient_total (conditions : condition_codes) (t : string)
    (z : Z) (i : string) :
  useGradient conditions {| text := t; code := JNum z; icon := JStr i |}
  = Normal (gradient_of_rule
              (first_match (gradient_rules conditions) (JNum z))
              (str_includes i "day")).
Proof.
  unfold useGradient, first_match, gradient_rules, gradient_of_rule.
  cbn [icon code List.find applies].
  destruct (arr_includes (sunny conditions) (JNum z)); [reflexivity|].
  destruct (arr_includes (rainy conditions) (JNum z)
            || arr_includes (cloudy conditions) (JNum z)); [reflexivity|].
  destruct (arr_includes (drizzle conditions) (JNum z)); [reflexivity|].
  destruct (arr_includes (overcast conditions) (JNum z)); [reflexivity|].
  destruct (arr_includes (foggy conditions) (JNum z)); reflexivity.
Qed.

(** ** [render] *)

(** One call of [render]: whatever [#app] held, it now holds the nodes of
    the fragment, and the fragment is empty. *)
Lemma render_replaces (d : document) (a : nat) (present nodes : list node) :
  container d = Some present -> fragments d !! a = Some nodes ->
  render a d
  = (Normal tt,
     {| title := title d;
        container := Some nodes;
        fragments := <[a := []]> (fragments d) |}).
Proof.
  intros Hc Hf. unfold render, bind, clear_app, appendChild_app.
  rewrite Hc. cbn [container fragments title]. rewrite Hf. reflexivity.
Qed.

(** C9: rendering a fragment and then an equal fragment built anew leaves
    in [#app] what the first rendering left there: each call replaces the
    whole content by the nodes of its fragment. *)
Theorem render_twice_as_once (d : document) (a b : nat)
    (nodes : list node) :
  is_Some (container d) -> a <> b ->
  fragments d !! a = Some nodes -> fragments d !! b = Some nodes ->
  exists d1 d2 : document,
    render a d = (Normal tt, d1) /\
    render b d1 = (Normal tt, d2) /\
    container d1 = Some nodes /\
    container d2 = container d1.
Proof.
  intros [present Hc] Hab Ha Hb.
  eexists _, _. split; [exact (render_replaces d a present nodes Hc Ha)|].
  split.
  - apply (render_replaces _ b nodes nodes); cbn [container fragments].
    + reflexivity.
    + rewrite lookup_insert_ne by exact Hab. exact Hb.
  - split; reflexivity.
Qed.

(** The same fragment object rendered again is empty by then: its children
    were moved into [#app] by the first call. *)
Lemma render_same_fragment_again (d : document) (a : nat)
    (nodes : list node) :
  is_Some (container d) -> fragments d !! a = Some nodes ->
  exists d1 d2 : document,
    render a d = (Normal tt, d1) /\
    render a d1 = (Normal tt, d2) /\
    container d1 = Some nodes /\
    container d2 = Some [].
Proof.
  intros [present Hc] Ha.
  eexists _, _. split; [exact (render_replaces d a present nodes Hc Ha)|].
  split.
  - apply (render_replaces _ a nodes []); cbn [container fragments].
    + reflexivity.
    + apply lookup_insert_eq.
  - split; reflexivity.
Qed.

(** ** The [watch] callback *)

(** One emission with a payload, on a page that has [#app]. *)
Lemma watch_callback_payload (p : WeatherResponse) (d : document)
    (present : list node) :
  container d = Some present ->
  watch_callback (Payload p) d
  = (Normal tt,
     {| title := "Weather forecast in " +:+ name (location p) +:+ ", "
                 +:+ country (location p);
        container := Some (App (location p) (current p));
        fragments :=
          <[fresh (dom (fragments d)) := []]>
            (<[fresh (dom (fragments d)) := App (location p) (current p)]>
               (fragments d)) |}).
Proof.
  intros Hc. unfold watch_callback. cbn [emitted_truthy].
  unfold bind at 1. cbn [html]. unfold bind at 1. cbn [set_title].
  erewrite render_replaces; cbn [container fragments title].
  - reflexivity.
  - exact Hc.
  - apply lookup_insert_eq.
Qed.

(** C8: on a page that has [#app], an emission with a payload sets the
    title to ["Weather forecast in {name}, {country}"] and the text of the
    temperature element to ["{temp_f}°F"]. *)
Theorem title_and_temperature (p : WeatherResponse) (d : document) :
  is_Some (container d) ->
  exists d' : document,
    watch_callback (Payload p) d = (Normal tt, d') /\
    title d' = "Weather forecast in " +:+ name (location p) +:+ ", "
               +:+ country (location p) /\
    displayed_temperature d'
    = Some (number_toString (temp_f (current p)) +:+ "°F").
Proof.
  intros [present Hc]. eexists. split.
  - exact (watch_callback_payload p d present Hc).
  - split; reflexivity.
Qed.

(** C10: an emission whose [data] is falsy leaves the document as it is:
    the title, [#app] and the fragments. *)
Theorem falsy_data_changes_nothing (data : emitted) (d : document) :
  emitted_truthy data = false ->
  watch_callback data d = (Normal tt, d).
Proof.
  intros H. unfold watch_callback. rewrite H. reflexivity.
Qed.

(** Two emissions of the same payload leave in [#app] what one leaves. *)
Lemma same_payload_twice (p : WeatherResponse) (d : document) :
  is_Some (container d) ->
  exists d1 d2 : document,
    watch_callback (Payload p) d = (Normal tt, d1) /\
    watch_callback (Payload p) d1 = (Normal tt, d2) /\
    container d2 = container d1 /\ title d2 = title d1.
Proof.
  intros [present Hc]. eexists _, _.
  split; [exact (watch_callback_payload p d present Hc)|].
  split.
  - eapply watch_callback_payload. reflexivity.
  - split; reflexivity.
Qed.

End Properties.

(** * The code at concrete inputs *)

Example q_Paris_subscribes :
  @DOMContentLoaded integer_platform paris_window []
  = (Subscribed (JStr "Paris"), []).
Proof. reflexivity. Qed.

Example encoded_q_is_decoded :
  searchParams_get (parse_urlencoded "lang=fr&q=New+York%2C%20NY&q=Lyon") "q"
  = JStr "New York, NY".
Proof. reflexivity. Qed.

Example foo_bar_subscribes_null :
  @DOMContentLoaded integer_platform foo_window []
  = (Subscribed JNull, []).
Proof. reflexivity. Qed.

Example no_query_asks_the_device :
  @DOMContentLoaded integer_platform
    {| window_location := {| url_query := None |};
       window_navigator := window_navigator foo_window |} []
  = (Subscribed (JStr "48,2"),
     [{| enableHighAccuracy := true; timeout := 5000; maximumAge := 0 |}]).
Proof. reflexivity. Qed.

Example unanswered_prompt_suspends :
  fst (@DOMContentLoaded integer_platform
         {| window_location := {| url_query := None |};
            window_navigator := window_navigator paris_window |} [])
  = Suspended.
Proof. reflexivity. Qed.

Example paris_is_rendered :
  exists d' : document,
    @watch_callback integer_platform (Payload paris) blank_page
    = (Normal tt, d') /\
    title d' = "Weather forecast in Paris, France" /\
    displayed_temperature d' = Some "50°F".
Proof. eexists. repeat split; reflexivity. Qed.

Example two_builds_are_equal :
  fragments page_with_two_builds !! 0%nat
  = Some (@App integer_platform (location paris) (current paris)) /\
  fragments page_with_two_builds !! 1%nat
  = Some (@App integer_platform (location paris) (current paris)).
Proof. split; vm_compute; reflexivity. Qed.

Example clear_gradient_by_day :
  useGradient sample_conditions (current_condition (current paris))
  = Normal "--from: var(--orange); --to: var(--yellow)".
Proof. reflexivity. Qed.

Example icon_missing_throws :
  useGradient sample_conditions
    {| text := "Clear"; code := JNum 1000; icon := JUndefined |}
  = Throw "TypeError".
Proof. reflexivity. Qed.

(** * The theorems at concrete inputs *)

(** C1 at [?q=Paris]: the key is ["Paris"], no request to the device. *)
Lemma q_parameter_is_the_location_witness :
  In ("q", "Paris") (searchParams (window_location paris_window)) /\
  exists v : string,
    In ("q", v) (searchParams (window_location paris_window)) /\
    searchParams_get (searchParams (window_location paris_window)) "q"
    = JStr v /\
    @DOMContentLoaded integer_platform paris_window []
    = (Subscribed (JStr v), []).
Proof.
  assert (H : In ("q", "Paris") (searchParams (window_location paris_window)))
    by (left; reflexivity).
  split; [exact H|].
  exact (@q_parameter_is_the_location integer_platform paris_window "Paris"
           [] H).
Defined.

(** C2 at [?foo=bar]. *)
Lemma query_without_q_gives_null_witness :
  url_query (window_location foo_window) = Some "foo=bar" /\
  @DOMContentLoaded integer_platform foo_window [] = (Subscribed JNull, []).
Proof.
  split; [reflexivity|].
  apply (@query_without_q_gives_null integer_platform foo_window "foo=bar").
  - reflexivity.
  - discriminate.
  - intros v [H | H]; [discriminate H | exact H].
Defined.

(** C3 at code 1000 with the icon ["day.png"]. *)
Lemma sunny_gradient_witness :
  In 1000 (sunny sample_conditions) /\
  useGradient sample_conditions (current_condition (current paris))
  = Normal "--from: var(--orange); --to: var(--yellow)".
Proof.
  split; [left; reflexivity|].
  apply (sunny_gradient sample_conditions
           (current_condition (current paris)) 1000 "day.png").
  - reflexivity.
  - left. reflexivity.
  - reflexivity.
  - exists "", ".png". reflexivity.
Defined.

(** C4 at code 1273, which [sample_conditions] does not list, by night. *)
Lemma unmatched_code_gradient_witness :
  ~ contains "//cdn.weatherapi.com/weather/64x64/night/386.png" "day" /\
  useGradient sample_conditions thunder_by_night
  = Normal "--from: var(--navy); --to: var(--blue)".
Proof.
  assert (Hnight :
    ~ contains "//cdn.weatherapi.com/weather/64x64/night/386.png" "day").
  { intros H. apply str_includes_spec in H. discriminate H. }
  split; [exact Hnight|].
  apply (unmatched_code_gradient sample_conditions thunder_by_night 1273
           "//cdn.weatherapi.com/weather/64x64/night/386.png");
    try reflexivity; try exact Hnight;
    simpl; intuition discriminate.
Defined.

(** C6 at the locale ["en-US"]. *)
Lemma useLanguage_primary_subtag_witness :
  @useLanguage integer_platform denying_navigator = Fulfilled (JStr "en").
Proof.
  apply (proj1 (@useLanguage_primary_subtag integer_platform
                  denying_navigator) "en" "US").
  - reflexivity.
  - intros H. apply str_includes_spec in H. discriminate H.
Defined.

(** C6 as stated fails at the locale ["fil-PH"]: the resolver answers
    ["fil"], which has three letters. *)
Lemma useLanguage_fil_PH_not_two_letters :
  @useLanguage integer_platform fil_navigator = Fulfilled (JStr "fil") /\
  String.length "fil" <> 2%nat.
Proof. split; [reflexivity | discriminate]. Qed.

(** C7 without geolocation support, and with the permission denied. *)
Lemma useLocation_falls_back_witness :
  fst (@useLocation integer_platform fil_navigator []) = Fulfilled "auto:ip" /\
  fst (@useLocation integer_platform denying_navigator [])
  = Fulfilled "auto:ip".
Proof.
  split.
  - apply useLocation_falls_back. left. reflexivity.
  - apply useLocation_falls_back. right. exists 1. reflexivity.
Defined.

(** C8 at the mocked payload, on a page with an empty [#app]. *)
Lemma title_and_temperature_witness :
  is_Some (container blank_page) /\
  exists d' : document,
    @watch_callback integer_platform (Payload paris) blank_page
    = (Normal tt, d') /\
    title d' = "Weather forecast in Paris, France" /\
    displayed_temperature d' = Some "50°F".
Proof.
  assert (H : is_Some (container blank_page)) by (eexists; reflexivity).
  split; [exact H|].
  exact (@title_and_temperature integer_platform paris blank_page H).
Defined.

(** C9 at two builds of the same template. *)
Lemma render_twice_as_once_witness :
  exists d1 d2 : document,
    render 0%nat page_with_two_builds = (Normal tt, d1) /\
    render 1%nat d1 = (Normal tt, d2) /\
    container d1
    = Some (@App integer_platform (location paris) (current paris)) /\
    container d2 = container d1.
Proof.
  apply (render_twice_as_once page_with_two_builds 0%nat 1%nat).
  - eexists. reflexivity.
  - discriminate.
  - vm_compute. reflexivity.
  - vm_compute. reflexivity.
Defined.

(** C10 at [data] undefined, the emission before the first fetch. *)
Lemma falsy_data_changes_nothing_witness :
  @watch_callback integer_platform (Prim JUndefined) blank_page
  = (Normal tt, blank_page).
Proof.
  apply falsy_data_changes_nothing. reflexivity.
Defined.

(** The same fragment rendered twice, at the first build. *)
Lemma render_same_fragment_again_witness :
  exists d1 d2 : document,
    render 0%nat page_with_two_builds = (Normal tt, d1) /\
    render 0%nat d1 = (Normal tt, d2) /\
    container d1
    = Some (@App integer_platform (location paris) (current paris)) /\
    container d2 = Some [].
Proof.
  apply (render_same_fragment_again page_with_two_builds 0%nat).
  - eexists. reflexivity.
  - vm_compute. reflexivity.
Defined.

(** The mocked payload emitted twice. *)
Lemma same_payload_twice_witness :
  exists d1 d2 : document,
    @watch_callback integer_platform (Payload paris) blank_page
    = (Normal tt, d1) /\
    @watch_callback integer_platform (Payload paris) d1 = (Normal tt, d2) /\
    container d2 = container d1 /\ title d2 = title d1.
Proof.
  apply same_payload_twice. eexists. reflexivity.
Defined.

(** * Further properties *)

(** ** Strings and single characters *)

Lemma append_nil_r (s : string) : s +:+ "" = s.
Proof.
  induction s as [|a s IH]; str_norm; [reflexivity | congruence].
Qed.

Lemma contains_char_cons (c a : ascii) (s : string) :
  contains (String a s) (String c "") <-> a = c \/ contains s (String c "").
Proof.
  rewrite contains_cons. split.
  - intros [[post H] | H]; [left | right; exact H].
    str_norm. congruence.
  - intros [-> | H]; [left | right; exact H].
    exists s. reflexivity.
Qed.

Lemma contains_char_nil (c : ascii) : ~ contains "" (String c "").
Proof. intros H. apply contains_nil in H. discriminate H. Qed.

Lemma contains_char_app (c : ascii) (s t : string) :
  contains (s +:+ t) (String c "")
  <-> contains s (String c "") \/ contains t (String c "").
Proof.
  induction s as [|a s IH]; str_norm.
  - split; [auto | intros [H | H]; [|exact H]].
    exfalso. exact (contains_char_nil c H).
  - rewrite !contains_char_cons, IH. tauto.
Qed.


Lemma before_char_whole (c : ascii) (s : string) :
  ~ contains s (String c "") -> before_char c s = s.
Proof.
  induction s as [|a s IH]; intros Hfree; [reflexivity|].
  rewrite contains_char_cons in Hfree. simpl.
  destruct (Ascii.eqb a c) eqn:E.
  - apply Ascii.eqb_eq in E. tauto.
  - rewrite IH by tauto. reflexivity.
Qed.

Lemma before_char_is_free (c : ascii) (s : string) :
  ~ contains (before_char c s) (String c "").
Proof.
  induction s as [|a s IH]; simpl; [apply contains_char_nil|].
  destruct (Ascii.eqb a c) eqn:E; [apply contains_char_nil|].
  rewrite contains_char_cons. intros [-> | H]; [|exact (IH H)].
  rewrite Ascii.eqb_refl in E. discriminate E.
Qed.


Lemma percent_decode_plain (s : string) :
  ~ contains s "%" -> percent_decode s = s.
Proof.
  induction s as [|a s IH]; intros Hfree; [reflexivity|].
  rewrite contains_char_cons in Hfree.
  change (percent_decode (String a s))
    with (if Ascii.eqb a "%" then
            match s with
            | String h (String l rest') =>
                match hex_digit h, hex_digit l with
                | Some x, Some y =>
                    String (ascii_of_nat (16 * x + y)) (percent_decode rest')
                | _, _ => String a (percent_decode s)
                end
            | _ => String a (percent_decode s)
            end
          else String a (percent_decode s)).
  destruct (Ascii.eqb a "%") eqn:E.
  - apply Ascii.eqb_eq in E. tauto.
  - rewrite IH by tauto. reflexivity.
Qed.

Lemma plus_to_space_plain (s : string) :
  ~ contains s "+" -> plus_to_space s = s.
Proof.
  induction s as [|a s IH]; intros Hfree; [reflexivity|].
  rewrite contains_char_cons in Hfree. simpl.
  destruct (Ascii.eqb a "+") eqn:E.
  - apply Ascii.eqb_eq in E. tauto.
  - rewrite IH by tauto. reflexivity.
Qed.

Lemma decode_component_plain (s : string) :
  ~ contains s "+" -> ~ contains s "%" -> decode_component s = s.
Proof.
  intros Hplus Hpct. unfold decode_component.
  rewrite plus_to_space_plain by exact Hplus.
  apply percent_decode_plain. exact Hpct.
Qed.

(** The first piece of a split is free of the separator. *)
Lemma str_split_first_free (sep : ascii) (s w : string) (ws : list string) :
  str_split sep s = w :: ws -> ~ contains w (String sep "").
Proof.
  revert w ws. induction s as [|a s IH]; simpl; intros w ws.
  - intros [= <- <-]. apply contains_char_nil.
  - destruct (Ascii.eqb a sep) eqn:E.
    + intros [= <- <-]. apply contains_char_nil.
    + destruct (str_split sep s) as [|w' ws'] eqn:Hs.
      * intros [= <- <-]. rewrite contains_char_cons.
        intros [-> | H]; [|exact (contains_char_nil sep H)].
        rewrite Ascii.eqb_refl in E. discriminate E.
      * intros [= <- <-]. rewrite contains_char_cons.
        intros [-> | H]; [|exact (IH _ _ eq_refl H)].
        rewrite Ascii.eqb_refl in E. discriminate E.
Qed.

(** ** The urlencoded parser on a leading [q=v] *)

Lemma cut_pair_q (v : string) : cut_pair ("q=" +:+ v) = ("q", v).
Proof. reflexivity. Qed.

Lemma q_pair_decoded (v : string) :
  ~ contains v "+" -> ~ contains v "%" ->
  (let '(n, w) := cut_pair ("q=" +:+ v) in
   (decode_component n, decode_component w)) = ("q", v).
Proof.
  intros Hplus Hpct. rewrite cut_pair_q.
  rewrite (decode_component_plain v Hplus Hpct). reflexivity.
Qed.

Lemma q_prefix_free (v : string) :
  ~ contains v "&" -> ~ contains ("q=" +:+ v) "&".
Proof.
  intros Hamp. str_norm. rewrite !contains_char_cons.
  intros [H | [H | H]]; [discriminate H | discriminate H | exact (Hamp H)].
Qed.

Lemma parse_q_alone (v : string) :
  ~ contains v "&" -> ~ contains v "+" -> ~ contains v "%" ->
  parse_urlencoded ("q=" +:+ v) = [("q", v)].
Proof.
  intros Hamp Hplus Hpct. unfold parse_urlencoded.
  rewrite str_split_no_sep by (apply q_prefix_free; exact Hamp).
  rewrite filter_cons_True by discriminate.
  rewrite filter_nil. cbn [map].
  rewrite (q_pair_decoded v Hplus Hpct). reflexivity.
Qed.

Lemma parse_q_first (v rest : string) :
  ~ contains v "&" -> ~ contains v "+" -> ~ contains v "%" ->
  exists more,
    parse_urlencoded (("q=" +:+ v) +:+ String "&" rest) = ("q", v) :: more.
Proof.
  intros Hamp Hplus Hpct. unfold parse_urlencoded.
  rewrite str_split_first by (apply q_prefix_free; exact Hamp).
  rewrite filter_cons_True by discriminate.
  cbn [map]. rewrite (q_pair_decoded v Hplus Hpct). eauto.
Qed.

Section MoreProperties.

Context {P : Platform}.

(** ** [useLanguage] and [useLocation], further *)

Lemma en_has_no_hyphen : ~ contains "en" "-".
Proof.
  rewrite !contains_char_cons.
  intros [H | [H | H]];
    [discriminate H | discriminate H | exact (contains_char_nil _ H)].
Qed.

Lemma useLanguage_is_string (nav : navigator) :
  exists lang : string, useLanguage nav = Fulfilled (JStr lang).
Proof.
  unfold useLanguage.
  destruct (language nav) as [l|]; [|eexists; reflexivity].
  destruct (truthy (JStr l)); [|eexists; reflexivity].
  destruct (str_split_head "-" l) as [w [ws ->]]. eexists. reflexivity.
Qed.

(** The language resolver always resolves with a string that has no
    hyphen. *)
Theorem useLanguage_has_no_hyphen (nav : navigator) :
  exists lang : string,
    useLanguage nav = Fulfilled (JStr lang) /\ ~ contains lang "-".
Proof.
  unfold useLanguage.
  destruct (language nav) as [l|];
    [|exists "en"; split; [reflexivity | exact en_has_no_hyphen]].
  destruct (truthy (JStr l));
    [|exists "en"; split; [reflexivity | exact en_has_no_hyphen]].
  destruct (str_split_head "-" l) as [w [ws Hs]].
  exists w. rewrite Hs. split; [reflexivity|].
  exact (str_split_first_free _ _ _ _ Hs).
Qed.

(** The location resolver never rejects: its promise is fulfilled, or it
    stays pending, which happens only when the device calls neither
    callback. *)
Theorem useLocation_never_rejects (nav : navigator)
    (requests : list position_options) :
  (exists s, fst (useLocation nav requests) = Fulfilled s) \/
  (fst (useLocation nav requests) = Pending /\
   geolocation nav = Some GeoSilent).
Proof.
  unfold useLocation. destruct (geolocation nav) as [[c | e |]|]; cbn.
  - left. eauto.
  - left. eauto.
  - right. split; reflexivity.
  - left. eauto.
Qed.

(** ** The [DOMContentLoaded] handler, further *)

Lemma search_empty (u : page_url) :
  url_query u = None \/ url_query u = Some "" ->
  truthy (JStr (location_search u)) = false.
Proof. unfold location_search. intros [-> | ->]; reflexivity. Qed.

Lemma search_falsy_inv (u : page_url) :
  truthy (JStr (location_search u)) = false ->
  url_query u = None \/ url_query u = Some "".
Proof.
  unfold location_search. destruct (url_query u) as [[|a q]|]; cbn; auto.
  discriminate.
Qed.

Lemma search_truthy_inv (u : page_url) :
  truthy (JStr (location_search u)) = true ->
  exists q, url_query u = Some q /\ q <> "".
Proof.
  unfold location_search. destruct (url_query u) as [[|a q]|]; cbn;
    try discriminate.
  intros _. eexists. split; [reflexivity | discriminate].
Qed.

Lemma searchParams_get_cases (params : list (string * string)) (n : string) :
  (searchParams_get params n = JNull /\ forall v, ~ In (n, v) params) \/
  (exists v, searchParams_get params n = JStr v).
Proof.
  destruct (searchParams_get params n) eqn:E; eauto.
  - exfalso. induction params as [|[n' v'] params IH]; simpl in E;
      [discriminate|]. destruct (String.eqb n' n); [discriminate | auto].
  - left. split; [reflexivity|]. intros v Hv.
    destruct (searchParams_get_present _ _ _ Hv) as [v' Hv']. congruence.
  - exfalso. induction params as [|[n' v'] params IH]; simpl in E;
      [discriminate|]. destruct (String.eqb n' n); [discriminate | auto].
  - exfalso. induction params as [|[n' v'] params IH]; simpl in E;
      [discriminate|]. destruct (String.eqb n' n); [discriminate | auto].
Qed.

(** The handler never throws.  It creates the data source with a key that
    is a string, or [null] (only for a non-empty query without a [q]
    parameter), unless it is suspended for ever, which happens only without
    a query when the device calls neither callback. *)
Theorem handler_outcomes (w : window) (requests : list position_options) :
  (exists s, fst (DOMContentLoaded w requests) = Subscribed (JStr s)) \/
  (fst (DOMContentLoaded w requests) = Subscribed JNull /\
   (exists q, url_query (window_location w) = Some q /\ q <> "") /\
   (forall v, ~ In ("q", v) (searchParams (window_location w)))) \/
  (fst (DOMContentLoaded w requests) = Suspended /\
   (url_query (window_location w) = None \/
    url_query (window_location w) = Some "") /\
   geolocation (window_navigator w) = Some GeoSilent).
Proof.
  unfold DOMContentLoaded.
  destruct (truthy (JStr (location_search (window_location w)))) eqn:Hs.
  - destruct (searchParams_get_cases (searchParams (window_location w)) "q")
      as [[Hnull Hno] | [v Hv]].
    + right. left. rewrite Hnull. split; [reflexivity|].
      split; [exact (search_truthy_inv _ Hs) | exact Hno].
    + left. exists v. rewrite Hv. reflexivity.
  - unfold useLocation.
    destruct (geolocation (window_navigator w)) as [[c | e |]|]; cbn.
    + left. eauto.
    + left. eauto.
    + right. right.
      split; [reflexivity | split; [exact (search_falsy_inv _ Hs) | reflexivity]].
    + left. eauto.
Qed.

(** Without a query, or with the empty query of a URL that ends in [?],
    a browser without geolocation or whose device reports an error
    subscribes with ["auto:ip"]. *)
Theorem no_query_falls_back_to_auto_ip (w : window)
    (requests : list position_options) :
  url_query (window_location w) = None \/
  url_query (window_location w) = Some "" ->
  geolocation (window_navigator w) = None \/
  (exists e, geolocation (window_navigator w) = Some (GeoError e)) ->
  fst (DOMContentLoaded w requests) = Subscribed (JStr "auto:ip").
Proof.
  intros Hq Hg. unfold DOMContentLoaded, useLocation.
  rewrite (search_empty _ Hq).
  destruct Hg as [-> | [e ->]]; reflexivity.
Qed.

(** Without a query, when the device answers with a position, the handler
    makes exactly one request to the device (high accuracy, a timeout of
    5000 ms, no cached position) and subscribes with
    ["{latitude},{longitude}"]. *)
Theorem no_query_uses_the_position (w : window) (c : coordinates)
    (requests : list position_options) :
  url_query (window_location w) = None \/
  url_query (window_location w) = Some "" ->
  geolocation (window_navigator w) = Some (GeoPosition c) ->
  DOMContentLoaded w requests
  = (Subscribed
       (JStr (number_toString (latitude c) +:+ ","
              +:+ number_toString (longitude c))),
     requests ++
     [{| enableHighAccuracy := true; timeout := 5000; maximumAge := 0 |}]).
Proof.
  intros Hq Hg. unfold DOMContentLoaded, useLocation.
  rewrite (search_empty _ Hq), Hg. reflexivity.
Qed.

(** A query that starts with [q=v], where [v] has none of ["&"], ["+"]
    and ["%"], gives the key [v] letter for letter. *)
Theorem plain_q_is_the_key (w : window) (v tail : string)
    (requests : list position_options) :
  url_query (window_location w) = Some (("q=" +:+ v) +:+ tail) ->
  tail = "" \/ (exists rest, tail = String "&" rest) ->
  ~ contains v "&" -> ~ contains v "+" -> ~ contains v "%" ->
  DOMContentLoaded w requests = (Subscribed (JStr v), requests).
Proof.
  intros Hq Htail Hamp Hplus Hpct. unfold DOMContentLoaded.
  rewrite (search_truthy_of_query _ _ Hq) by (str_norm; discriminate).
  unfold searchParams. rewrite Hq.
  destruct Htail as [-> | [rest ->]].
  - rewrite append_nil_r.
    rewrite (parse_q_alone v Hamp Hplus Hpct). reflexivity.
  - destruct (parse_q_first v rest Hamp Hplus Hpct) as [more ->].
    reflexivity.
Qed.

(** ** [fetcher] *)

Lemma fetcher_runs (cfg : config) (nav : navigator)
    (fetch : request -> promise response) (location : jsval)
    (sent : list request) :
  exists lang : string,
    useLanguage nav = Fulfilled (JStr lang) /\
    fetcher cfg nav fetch location sent
    = (match fetch (weather_request cfg (to_string location) lang) with
       | Fulfilled data => json data
       | Pending => Pending
       | Rejected e => Rejected e
       end,
       sent ++ [weather_request cfg (to_string location) lang]).
Proof.
  destruct (useLanguage_is_string nav) as [lang Hl].
  exists lang. split; [exact Hl|].
  unfold fetcher. rewrite Hl. cbn [to_string].
  fold (weather_request cfg (to_string location) lang).
  destruct (fetch (weather_request cfg (to_string location) lang));
    reflexivity.
Qed.

(** Whatever the network answers, [fetcher] hands exactly one request to
    [fetch]: a GET of [{ApiUrl}?q={location}&lang={language}] with the two
    API-key headers, where the language is what [useLanguage] resolves. *)
Theorem fetcher_sends_one_request (cfg : config) (nav : navigator)
    (fetch : request -> promise response) (location : jsval)
    (sent : list request) :
  exists lang : string,
    useLanguage nav = Fulfilled (JStr lang) /\
    snd (fetcher cfg nav fetch location sent)
    = sent ++ [weather_request cfg (to_string location) lang].
Proof.
  destruct (fetcher_runs cfg nav fetch location sent) as [lang [Hl Hf]].
  exists lang. rewrite Hf. split; [exact Hl | reflexivity].
Qed.

(** When the network answers and the body parses, [fetcher] resolves with
    the parsed body. *)
Theorem fetcher_resolves_with_the_body (cfg : config) (nav : navigator)
    (fetch : request -> promise response) (location : jsval)
    (sent : list request) (data : emitted) :
  (forall req, fetch req = Fulfilled {| json := Fulfilled data |}) ->
  fst (fetcher cfg nav fetch location sent) = Fulfilled data.
Proof.
  intros Hnet.
  destruct (fetcher_runs cfg nav fetch location sent) as [lang [_ Hf]].
  rewrite Hf, Hnet. reflexivity.
Qed.

(** [fetcher] catches nothing: when [fetch] rejects, or when the body
    does not parse and [json()] rejects, [fetcher] rejects with the same
    error. *)
Theorem fetcher_propagates_rejections (cfg : config) (nav : navigator)
    (fetch : request -> promise response) (location : jsval)
    (sent : list request) (e : string) :
  (forall req, fetch req = Rejected e) \/
  (forall req, fetch req = Fulfilled {| json := Rejected e |}) ->
  fst (fetcher cfg nav fetch location sent) = Rejected e.
Proof.
  intros Hnet.
  destruct (fetcher_runs cfg nav fetch location sent) as [lang [_ Hf]].
  rewrite Hf. destruct Hnet as [Hnet | Hnet]; rewrite Hnet; reflexivity.
Qed.




(** ** [useGradient], further *)

(** An icon that is not a string makes [useGradient] throw a TypeError,
    whatever the code. *)
Theorem useGradient_needs_a_string_icon (conditions : condition_codes)
    (c : condition) :
  (forall i, icon c <> JStr i) ->
  useGradient conditions c = Throw "TypeError".
Proof.
  intros H. unfold useGradient.
  destruct (icon c) as [| | b | z | i]; try reflexivity.
  exfalso. exact (H i eq_refl).
Qed.

Lemma arr_includes_not_number (a : list Z) (v : jsval) :
  (forall z, v <> JNum z) -> arr_includes a v = false.
Proof.
  intros H. destruct v as [| | b | z | s]; try reflexivity.
  exfalso. exact (H z eq_refl).
Qed.

(** A code that is not a number (missing, or the digits as a string) is in
    no category: it gets the default gradient. *)
Theorem useGradient_code_not_a_number (conditions : condition_codes)
    (c : condition) (i : string) :
  (forall z, code c <> JNum z) -> icon c = JStr i ->
  useGradient conditions c
  = Normal (gradient_of_rule default_rule (str_includes i "day")).
Proof.
  intros Hc Hi. unfold useGradient. rewrite Hi.
  rewrite !(arr_includes_not_number _ _ Hc). reflexivity.
Qed.

(** A rainy or cloudy code that is not sunny gets the same gradient as a
    code of no category. *)
Theorem rainy_or_cloudy_gradient (conditions : condition_codes)
    (c : condition) (z : Z) (i : string) :
  code c = JNum z -> icon c = JStr i ->
  ~ In z (sunny conditions) ->
  In z (rainy conditions) \/ In z (cloudy conditions) ->
  useGradient conditions c
  = Normal (gradient_of_rule default_rule (str_includes i "day")).
Proof.
  intros Hc Hi Hs Hrc. unfold useGradient. rewrite Hi, Hc.
  rewrite (arr_includes_not_In _ _ Hs).
  assert (E : arr_includes (rainy conditions) (JNum z)
              || arr_includes (cloudy conditions) (JNum z) = true).
  { apply orb_true_iff.
    destruct Hrc as [H | H]; [left | right]; apply arr_includes_In; exact H. }
  rewrite E. reflexivity.
Qed.

(** A drizzle code that is not sunny, rainy or cloudy: blue/teal by day,
    navy/teal by night. *)
Theorem drizzle_gradient (conditions : condition_codes) (c : condition)
    (z : Z) (i : string) :
  code c = JNum z -> icon c = JStr i ->
  ~ In z (sunny conditions) -> ~ In z (rainy conditions) ->
  ~ In z (cloudy conditions) -> In z (drizzle conditions) ->
  useGradient conditions c
  = Normal (if str_includes i "day"
            then "--from: var(--blue); --to: var(--teal)"
            else "--from: var(--navy); --to: var(--teal)").
Proof.
  intros Hc Hi Hs Hr Hcl Hd. unfold useGradient. rewrite Hi, Hc.
  rewrite !arr_includes_not_In by assumption.
  apply arr_includes_In in Hd. rewrite Hd. reflexivity.
Qed.

(** An overcast code of no earlier category: navy/teal by day, navy/olive
    by night. *)
Theorem overcast_gradient (conditions : condition_codes) (c : condition)
    (z : Z) (i : string) :
  code c = JNum z -> icon c = JStr i ->
  ~ In z (sunny conditions) -> ~ In z (rainy conditions) ->
  ~ In z (cloudy conditions) -> ~ In z (drizzle conditions) ->
  In z (overcast conditions) ->
  useGradient conditions c
  = Normal (if str_includes i "day"
            then "--from: var(--navy); --to: var(--teal)"
            else "--from: var(--navy); --to: var(--olive)").
Proof.
  intros Hc Hi Hs Hr Hcl Hd Ho. unfold useGradient. rewrite Hi, Hc.
  rewrite !arr_includes_not_In by assumption.
  apply arr_includes_In in Ho. rewrite Ho. reflexivity.
Qed.

(** A foggy code of no earlier category: blue/olive by day, navy/olive by
    night. *)
Theorem foggy_gradient (conditions : condition_codes) (c : condition)
    (z : Z) (i : string) :
  code c = JNum z -> icon c = JStr i ->
  ~ In z (sunny conditions) -> ~ In z (rainy conditions) ->
  ~ In z (cloudy conditions) -> ~ In z (drizzle conditions) ->
  ~ In z (overcast conditions) -> In z (foggy conditions) ->
  useGradient conditions c
  = Normal (if str_includes i "day"
            then "--from: var(--blue); --to: var(--olive)"
            else "--from: var(--navy); --to: var(--olive)").
Proof.
  intros Hc Hi Hs Hr Hcl Hd Ho Hf. unfold useGradient. rewrite Hi, Hc.
  rewrite !arr_includes_not_In by assumption.
  apply arr_includes_In in Hf. rewrite Hf. reflexivity.
Qed.

(** By night (an icon name without ["day"]) every gradient starts from
    navy and ends in blue, teal or olive, whatever the code and the
    table. *)
Theorem night_gradient_starts_from_navy (conditions : condition_codes)
    (c : condition) (i : string) :
  icon c = JStr i -> ~ contains i "day" ->
  exists colour : string,
    In colour ["blue"; "teal"; "olive"] /\
    useGradient conditions c
    = Normal ("--from: var(--navy); --to: var(--" +:+ colour +:+ ")").
Proof.
  intros Hi Hnight. unfold useGradient.
  rewrite Hi, (str_includes_false _ _ Hnight).
  destruct (arr_includes (sunny conditions) (code c));
    [exists "blue"; split; [simpl; tauto | reflexivity]|].
  destruct (arr_includes (rainy conditions) (code c)
            || arr_includes (cloudy conditions) (code c));
    [exists "blue"; split; [simpl; tauto | reflexivity]|].
  destruct (arr_includes (drizzle conditions) (code c));
    [exists "teal"; split; [simpl; tauto | reflexivity]|].
  destruct (arr_includes (overcast conditions) (code c));
    [exists "olive"; split; [simpl; tauto | reflexivity]|].
  destruct (arr_includes (foggy conditions) (code c));
    [exists "olive"; split; [simpl; tauto | reflexivity]|].
  exists "blue"; split; [simpl; tauto | reflexivity].
Qed.

(** ** [render] and the [watch] callback, further *)

Lemma render_without_app_none (d : document) (a : nat) :
  container d = None -> render a d = (Throw "TypeError", d).
Proof.
  intros Hc. unfold render, bind, clear_app. rewrite Hc. reflexivity.
Qed.

(** Given something that is no node, [render] throws a TypeError after it
    has emptied [#app]. *)
Theorem render_of_no_node_empties_app (d : document) (a : nat)
    (present : list node) :
  container d = Some present -> fragments d !! a = None ->
  render a d
  = (Throw "TypeError",
     {| title := title d; container := Some []; fragments := fragments d |}).
Proof.
  intros Hc Hf. unfold render, bind, clear_app, appendChild_app.
  rewrite Hc. cbn [container fragments]. rewrite Hf. reflexivity.
Qed.

(** A successful [render] touches [#app] and the fragment it was given,
    which it leaves empty, and nothing else: the title and the other
    fragments are as before. *)
Theorem render_frame (d : document) (a : nat) (present nodes : list node) :
  container d = Some present -> fragments d !! a = Some nodes ->
  exists d' : document,
    render a d = (Normal tt, d') /\
    title d' = title d /\
    fragments d' !! a = Some [] /\
    (forall b, b <> a -> fragments d' !! b = fragments d !! b).
Proof.
  intros Hc Hf. eexists. split; [exact (render_replaces d a _ _ Hc Hf)|].
  cbn [title fragments]. split; [reflexivity|]. split.
  - apply lookup_insert_eq.
  - intros b Hb. apply lookup_insert_ne. congruence.
Qed.

(** On a page without [#app], an emission with a payload throws a
    TypeError, but only after the title has been set. *)
Theorem callback_without_app_sets_the_title (p : WeatherResponse)
    (d : document) :
  container d = None ->
  exists d' : document,
    watch_callback (Payload p) d = (Throw "TypeError", d') /\
    title d' = "Weather forecast in " +:+ name (location p) +:+ ", "
               +:+ country (location p) /\
    container d' = None.
Proof.
  intros Hc. unfold watch_callback. cbn [emitted_truthy].
  unfold bind at 1. cbn [html]. unfold bind at 1. cbn [set_title].
  rewrite render_without_app_none by exact Hc.
  eexists. split; [reflexivity|]. split; [reflexivity | exact Hc].
Qed.

(** A truthy [data] that is no object makes the callback throw a
    TypeError, and the document is left as it is. *)
Theorem callback_on_truthy_primitive (v : jsval) (d : document) :
  truthy v = true ->
  watch_callback (Prim v) d = (Throw "TypeError", d).
Proof.
  intros H. unfold watch_callback. cbn [emitted_truthy]. rewrite H.
  reflexivity.
Qed.

(** ** What the callback renders *)


Lemma datetime_attributes_of (p : WeatherResponse) (d : document)
    (present : list node) :
  container d = Some present ->
  exists d' : document,
    watch_callback (Payload p) d = (Normal tt, d') /\
    attributes (node_has_class "date") "datetime" d'
    = [Some (at_index (str_split " " (localtime (location p))) 0)] /\
    attributes (node_has_class "time") "datetime" d'
    = [Some (at_index (str_split " " (localtime (location p))) 1)].
Proof.
  intros Hc. eexists.
  split; [exact (watch_callback_payload p d present Hc)|].
  split; reflexivity.
Qed.

(** When the local time is a date and a time of day separated by one
    space, the [datetime] attribute of the date element is the date and
    that of the time element is the time of day. *)
Theorem datetime_attributes (p : WeatherResponse) (d : document)
    (date time : string) :
  is_Some (container d) ->
  localtime (location p) = date +:+ " " +:+ time ->
  ~ contains date " " -> ~ contains time " " ->
  exists d' : document,
    watch_callback (Payload p) d = (Normal tt, d') /\
    attributes (node_has_class "date") "datetime" d' = [Some (JStr date)] /\
    attributes (node_has_class "time") "datetime" d' = [Some (JStr time)].
Proof.
  intros [present Hc] Hl Hd Ht.
  destruct (datetime_attributes_of p d present Hc) as [d' [Hw [Hda Hti]]].
  exists d'. split; [exact Hw|].
  rewrite Hda, Hti, Hl.
  change (" " +:+ time) with (String " " time).
  rewrite (str_split_first " " date time Hd).
  rewrite (str_split_no_sep " " time Ht). split; reflexivity.
Qed.


(** The callback never looks at the code or the icon of the condition:
    payloads that agree on everything else leave the same document. *)
Theorem rendering_ignores_code_and_icon (p1 p2 : WeatherResponse)
    (d : document) :
  location p1 = location p2 ->
  temp_f (current p1) = temp_f (current p2) ->
  text (current_condition (current p1))
  = text (current_condition (current p2)) ->
  wind_mph (current p1) = wind_mph (current p2) ->
  humidity (current p1) = humidity (current p2) ->
  pressure_mb (current p1) = pressure_mb (current p2) ->
  watch_callback (Payload p1) d = watch_callback (Payload p2) d.
Proof.
  intros Hl Ht Hc Hw Hh Hp.
  assert (E : App (location p1) (current p1)
              = App (location p2) (current p2)).
  { unfold App. rewrite Hl, Ht, Hc, Hw, Hh, Hp. reflexivity. }
  unfold watch_callback. cbn [emitted_truthy]. rewrite E, Hl. reflexivity.
Qed.

End MoreProperties.

(** * The further properties at concrete inputs *)

Ltac not_contained :=
  let H := fresh in
  intros H; apply str_includes_spec in H; discriminate H.

Lemma no_query_falls_back_to_auto_ip_witness :
  fst (@DOMContentLoaded integer_platform denied_window [])
  = Subscribed (JStr "auto:ip").
Proof.
  apply no_query_falls_back_to_auto_ip.
  - left. reflexivity.
  - right. exists 1. reflexivity.
Defined.

Lemma no_query_uses_the_position_witness :
  @DOMContentLoaded integer_platform plain_window []
  = (Subscribed (JStr "48,2"),
     [{| enableHighAccuracy := true; timeout := 5000; maximumAge := 0 |}]).
Proof.
  apply (@no_query_uses_the_position integer_platform plain_window
           device_position []).
  - left. reflexivity.
  - reflexivity.
Defined.

Lemma plain_q_is_the_key_witness :
  @DOMContentLoaded integer_platform paris_window []
  = (Subscribed (JStr "Paris"), []).
Proof.
  apply (@plain_q_is_the_key integer_platform paris_window "Paris" "").
  - reflexivity.
  - left. reflexivity.
  - not_contained.
  - not_contained.
  - not_contained.
Defined.

Lemma fetcher_resolves_with_the_body_witness :
  fst (@fetcher integer_platform sample_config fil_navigator paris_network
         (JStr "Paris") [])
  = Fulfilled (Payload paris).
Proof.
  apply fetcher_resolves_with_the_body. intros req. reflexivity.
Defined.

Lemma fetcher_propagates_rejections_witness :
  fst (@fetcher integer_platform sample_config fil_navigator failing_network
         (JStr "Paris") [])
  = Rejected "TypeError: Failed to fetch".
Proof.
  apply fetcher_propagates_rejections. left. intros req. reflexivity.
Defined.



Lemma useGradient_needs_a_string_icon_witness :
  useGradient sample_conditions
    {| text := "Clear"; code := JNum 1000; icon := JUndefined |}
  = Throw "TypeError".
Proof.
  apply useGradient_needs_a_string_icon. intros i. discriminate.
Defined.

Lemma useGradient_code_not_a_number_witness :
  useGradient sample_conditions
    {| text := "Clear"; code := JStr "1000"; icon := JStr "day.png" |}
  = Normal "--from: var(--blue); --to: var(--aqua)".
Proof.
  apply (useGradient_code_not_a_number sample_conditions _ "day.png").
  - intros z. discriminate.
  - reflexivity.
Defined.

Lemma rainy_or_cloudy_gradient_witness :
  useGradient sample_conditions
    {| text := "Partly cloudy"; code := JNum 1003; icon := JStr "day.png" |}
  = Normal "--from: var(--blue); --to: var(--aqua)".
Proof.
  apply (rainy_or_cloudy_gradient sample_conditions _ 1003 "day.png").
  - reflexivity.
  - reflexivity.
  - simpl. intuition discriminate.
  - right. left. reflexivity.
Defined.

Lemma drizzle_gradient_witness :
  useGradient sample_conditions
    {| text := "Patchy light drizzle"; code := JNum 1150;
       icon := JStr "day.png" |}
  = Normal "--from: var(--blue); --to: var(--teal)".
Proof.
  apply (drizzle_gradient sample_conditions _ 1150 "day.png");
    try reflexivity; simpl; intuition discriminate.
Defined.

Lemma overcast_gradient_witness :
  useGradient sample_conditions
    {| text := "Overcast"; code := JNum 1009; icon := JStr "night.png" |}
  = Normal "--from: var(--navy); --to: var(--olive)".
Proof.
  apply (overcast_gradient sample_conditions _ 1009 "night.png");
    try reflexivity; simpl; intuition discriminate.
Defined.

Lemma foggy_gradient_witness :
  useGradient sample_conditions
    {| text := "Mist"; code := JNum 1030; icon := JStr "day.png" |}
  = Normal "--from: var(--blue); --to: var(--olive)".
Proof.
  apply (foggy_gradient sample_conditions _ 1030 "day.png");
    try reflexivity; simpl; intuition discriminate.
Defined.

Lemma night_gradient_starts_from_navy_witness :
  exists colour : string,
    In colour ["blue"; "teal"; "olive"] /\
    useGradient sample_conditions thunder_by_night
    = Normal ("--from: var(--navy); --to: var(--" +:+ colour +:+ ")").
Proof.
  apply (night_gradient_starts_from_navy sample_conditions thunder_by_night
           "//cdn.weatherapi.com/weather/64x64/night/386.png").
  - reflexivity.
  - not_contained.
Defined.

Lemma render_of_no_node_empties_app_witness :
  render 7%nat page_with_two_builds
  = (Throw "TypeError",
     {| title := title page_with_two_builds; container := Some [];
        fragments := fragments page_with_two_builds |}).
Proof.
  apply (render_of_no_node_empties_app page_with_two_builds 7%nat
           [Text "Loading"]).
  - reflexivity.
  - vm_compute. reflexivity.
Defined.

Lemma render_frame_witness :
  exists d' : document,
    render 0%nat page_with_two_builds = (Normal tt, d') /\
    title d' = title page_with_two_builds /\
    fragments d' !! 0%nat = Some [] /\
    (forall b, b <> 0%nat ->
               fragments d' !! b = fragments page_with_two_builds !! b).
Proof.
  apply (render_frame page_with_two_builds 0%nat [Text "Loading"]
           (@App integer_platform (location paris) (current paris))).
  - reflexivity.
  - vm_compute. reflexivity.
Defined.

Lemma callback_without_app_sets_the_title_witness :
  exists d' : document,
    @watch_callback integer_platform (Payload paris) page_without_app
    = (Throw "TypeError", d') /\
    title d' = "Weather forecast in Paris, France" /\
    container d' = None.
Proof.
  apply (@callback_without_app_sets_the_title integer_platform paris
           page_without_app).
  reflexivity.
Defined.

Lemma callback_on_truthy_primitive_witness :
  @watch_callback integer_platform (Prim (JStr "Too many requests"))
    blank_page
  = (Throw "TypeError", blank_page).
Proof.
  apply callback_on_truthy_primitive. reflexivity.
Defined.


Lemma datetime_attributes_witness :
  exists d' : document,
    @watch_callback integer_platform (Payload paris) blank_page
    = (Normal tt, d') /\
    attributes (node_has_class "date") "datetime" d'
    = [Some (JStr "2024-01-01")] /\
    attributes (node_has_class "time") "datetime" d' = [Some (JStr "13:00")].
Proof.
  apply (@datetime_attributes integer_platform paris blank_page
           "2024-01-01" "13:00").
  - eexists. reflexivity.
  - reflexivity.
  - not_contained.
  - not_contained.
Defined.


Lemma rendering_ignores_code_and_icon_witness :
  @watch_callback integer_platform (Payload paris) blank_page
  = @watch_callback integer_platform (Payload paris_by_night) blank_page.
Proof.
  apply rendering_ignores_code_and_icon; reflexivity.
Defined.
